(** * ktye/map: projection engine, tile servers and the orux export guard

    A shallow embedding of

    - [coordinates.go]  (LatLon, XY, MinLatitude, checkZoom, two),
    - [tile/tile.go]    (NumTiles, normalizeTile, CacheServer, PointServer,
                         SparsePointServer, CombinedServer),
    - [orux/orux.go]    (Map.Count, the size guard of Map.Encode, the tile
                         loops of Map.sqlitePipe, Map.expandTileCorners).

    Go's [int] is modelled by [Z], [float64] by the primitive binary64
    floats of the standard library, a [panic] by the [Panic] outcome of the
    [Res] monad, and an [error] result by an [option error] next to the
    value, the way the Go functions return it. *)

From Stdlib Require Import ZArith List Bool Lia String Floats.
From stdpp Require Import base gmap list strings.

Open Scope Z_scope.

(** ** Outcomes: a value or a panic *)

Inductive Res (A : Type) : Type :=
| Val (a : A)
| Panic (msg : string).
Arguments Val {A} a.
Arguments Panic {A} msg.

#[global] Instance res_ret : MRet Res := fun A a => Val a.
#[global] Instance res_bind : MBind Res := fun A B k r =>
  match r with
  | Val a => k a
  | Panic msg => Panic msg
  end.

Definition is_panic {A : Type} (r : Res A) : bool :=
  match r with Val _ => false | Panic _ => true end.

(** ** float64 and its conversions *)

Module F64.

Definition int64_min : Z := - 2 ^ 63.
Definition int64_max : Z := 2 ^ 63 - 1.

(** [float64(n)] for an integer [n]: the nearest binary64 value. *)
Definition of_int (n : Z) : float :=
  SF2Prim (binary_normalize prec emax n 0 false).

(** [int(f)] for a float [f]: truncation toward zero.  The Go
    specification leaves the result open when the value does not fit;
    amd64 yields the smallest int64 there, which is what is used here. *)
Definition to_int (f : float) : Z :=
  match Prim2SF f with
  | S754_zero _ => 0
  | S754_finite s m e =>
      let v := Z.shiftl (Zpos m) e in
      let r := if s then - v else v in
      if (int64_min <=? r) && (r <=? int64_max) then r else int64_min
  | _ => int64_min
  end.

End F64.

(** The functions of Go's [math] package that the projection calls.  The
    package is not part of the repository: the embedding takes it as a
    parameter, and every general statement below holds for any choice. *)
Record MathLib : Type := {
  Log : float -> float;
  Tan : float -> float;
  Cos : float -> float;
  Atan : float -> float;
  Exp : float -> float
}.

(** ** coordinates.go *)

Module Coord.

Definition Degree : Type := float.

(** [math.Pi], [2*math.Pi] and [180.0/math.Pi] as Go folds them. *)
Definition Pi : float := 0x1.921fb54442d18p+1%float.
Definition TwoPi : float := 0x1.921fb54442d18p+2%float.
Definition DegPerRad : float := 0x1.ca5dc1a63c1f8p+5%float.

Record LatLon : Type := mkLatLon { Lat : Degree; Lon : Degree }.
Arguments mkLatLon (Lat Lon)%_float.

Record XY : Type := mkXY {
  X : Z; Y : Z;     (* tile index *)
  XP : Z; YP : Z;   (* pixel offset within the tile *)
  Zoom : Z          (* field Z of the Go struct *)
}.

(** The zero value [XY{}]. *)
Definition XY_zero : XY := mkXY 0 0 0 0 0.

Inductive error : Type :=
| ZoomRangeError
| LatitudeError (lat : Degree).
Arguments LatitudeError lat%_float.

(** [func checkZoom(z int)] *)
Definition checkZoom (z : Z) : Res unit :=
  if (z <? 0) || (24 <? z)
  then Panic "zoom value is out of range [0, 24]"
  else Val tt.

(** [two[z]]: the table holds 2^i for i = 0..24; indexing outside of it
    panics. *)
Definition two (z : Z) : Res float :=
  if (z <? 0) || (25 <=? z)
  then Panic "index out of range"
  else Val (F64.of_int (Z.shiftl 1 z)).

Definition Radians (d : Degree) : float := (d / 180 * Pi)%float.

(** [MaxLatitude] = 85.05112877980659 *)
Definition MaxLatitude : Degree := 0x1.54345b1a549d6p+6%float.

Section WithMath.
Variable M : MathLib.

(** [func (xy XY) LatLon() LatLon] *)
Definition XY_LatLon (xy : XY) : Res LatLon :=
  let x := (F64.of_int (X xy) + F64.of_int (XP xy) / 256)%float in
  let y := (F64.of_int (Y xy) + F64.of_int (YP xy) / 256)%float in
  t ← two (Zoom xy);
  let n := (Pi - TwoPi * y / t)%float in
  Val {| Lat := (DegPerRad * Atan M (0.5 * (Exp M n - Exp M (- n))))%float;
         Lon := (x / t * 360 - 180)%float |}.

(** [func MinLatitude(z int) Degree] *)
Definition MinLatitude (z : Z) : Res Degree :=
  _ ← checkZoom z;
  ll ← XY_LatLon {| X := Z.shiftl 1 z - 1; Y := Z.shiftl 1 z - 1;
                     Zoom := z; XP := 255; YP := 255 |};
  Val (Lat ll).

(** [func (d LatLon) XY(z int) (XY, error)] *)
Definition LatLon_XY (d : LatLon) (z : Z) : Res (XY * option error) :=
  if (z <? 0) || (24 <? z) then Val (XY_zero, Some ZoomRangeError)
  else
    minlat ← MinLatitude z;
    if (Lat d <? minlat)%float || (MaxLatitude <? Lat d)%float
    then Val (XY_zero, Some (LatitudeError (Lat d)))
    else
      t ← two z;
      let x := ((Lon d + 180) / 360 * t)%float in
      let r := Radians (Lat d) in
      let y := ((1 - Log M (Tan M r + 1 / Cos M r) / Pi) / 2 * t)%float in
      Val ({| X := F64.to_int x;
              Y := F64.to_int y;
              Zoom := z;
              XP := F64.to_int (256 * (x - F64.of_int (F64.to_int x)));
              YP := F64.to_int (256 * (y - F64.of_int (F64.to_int y))) |},
           None).

End WithMath.

End Coord.

(** ** A reference instance of the math functions

    Argument reduction and truncated power series over binary64, accurate to
    a few units in the last place on the range the projection uses.  It makes
    the model run on concrete points; no general statement depends on it. *)

Module RefMath.

Definition Ln2 : float := 0x1.62e42fefa39efp-1%float.
Definition HalfPi : float := 0x1.921fb54442d18p+0%float.
Definition SqrtHalf : float := 0x1.6a09e667f3bcdp-1%float.

Definition round_int (f : float) : Z :=
  F64.to_int (if (f <? 0)%float then f - 0.5 else f + 0.5)%float.

(** 1 + r/k (1 + r/(k+1) (1 + ...)), [n] levels deep. *)
Fixpoint exp_series (n : nat) (k : Z) (r : float) : float :=
  match n with
  | O => 1%float
  | S n' => (1 + r / F64.of_int k * exp_series n' (k + 1) r)%float
  end.

Definition exp (x : float) : float :=
  let k := round_int (x / Ln2) in
  let r := (x - F64.of_int k * Ln2)%float in
  Z.ldexp (exp_series 22 1 r) k.

(** 1/k + s q (1/(k+2) + s q (...)), [n] terms. *)
Fixpoint odd_series (n : nat) (k : Z) (s q : float) : float :=
  match n with
  | O => 0%float
  | S n' => (1 / F64.of_int k + s * q * odd_series n' (k + 2) s q)%float
  end.

Definition log (x : float) : float :=
  if (x <=? 0)%float
  then (if (x =? 0)%float then neg_infinity else nan)
  else
    let '(m, e) := Z.frexp x in
    let '(m, e) :=
      if (m <? SqrtHalf)%float then ((2 * m)%float, e - 1) else (m, e) in
    let t := ((m - 1) / (m + 1))%float in
    (F64.of_int e * Ln2 + 2 * t * odd_series 20 1 1 (t * t))%float.

Definition halve (x : float) : float := (x / (1 + sqrt (1 + x * x)))%float.

Definition atan_small (x : float) : float :=
  (x * odd_series 20 1 (-1) (x * x))%float.

Definition atan (x : float) : float :=
  if (1 <? abs x)%float
  then ((if (x <? 0)%float then - HalfPi else HalfPi)
        - 4 * atan_small (halve (halve (1 / x))))%float
  else (4 * atan_small (halve (halve x)))%float.

(** 1 - q/((k+1)(k+2)) (1 - q/((k+3)(k+4)) (...)), [n] levels deep. *)
Fixpoint trig_series (n : nat) (k : Z) (q : float) : float :=
  match n with
  | O => 1%float
  | S n' =>
      (1 - q / F64.of_int ((k + 1) * (k + 2)) * trig_series n' (k + 2) q)%float
  end.

Definition reduce (x : float) : float :=
  (x - F64.of_int (round_int (x / Coord.TwoPi)) * Coord.TwoPi)%float.

Definition cos (x : float) : float :=
  let r := reduce x in trig_series 20 0 (r * r).

Definition sin (x : float) : float :=
  let r := reduce x in (r * trig_series 20 1 (r * r))%float.

Definition tan (x : float) : float := (sin x / cos x)%float.

Definition lib : MathLib :=
  {| Log := log; Tan := tan; Cos := cos; Atan := atan; Exp := exp |}.

End RefMath.

(** ** tile/tile.go *)

Module Tile.
Import Coord.

(** A cache key [[3]int{z, x, y}] and a [point{x, y}]. *)
Abbreviation key := (Z * Z * Z)%type.
Abbreviation point := (Z * Z)%type.

Inductive error : Type :=
| CoordError (e : Coord.error)      (* an error of LatLon.XY, passed on *)
| NotCached                         (* "tile is not cached" *)
| ZoomMismatch (asked have : Z)     (* SparsePointServer.Get *)
| EOF                               (* io.EOF *)
| LocalPathUnset                    (* LocalServer.Add on the empty path *)
| IOError.                          (* a failing open, decode or request *)

(** [func NumTiles(z int) int] *)
Definition NumTiles (z : Z) : Z :=
  if (z <? 0) || (24 <? z) then 0 else Z.shiftl 1 z.

(** [func normalizeTile(z, x, y int) (X, Y int)].  Go's [%] truncates
    toward zero, as [Z.rem] does; neither [%] nor the addition can leave
    the int64 range, the modulus being at most 2^24. *)
Definition normalizeTile (z x y : Z) : Res (Z * Z) :=
  _ ← checkZoom z;
  let m := NumTiles z in
  let x := Z.rem x m in
  let y := Z.rem y m in
  let x := if x <? 0 then x + m else x in
  let y := if y <? 0 then y + m else y in
  Val (x, y).

(** *** Rasters *)

Inductive Color : Type :=
| Transparent
| Opaque
| Black
| RGBA (c : Z).

(** A 256x256 raster: the colour it was filled with and the pixels set
    since. *)
Record Image : Type := mkImage {
  fill : Color;
  drawn : gmap point Color
}.

Definition in_bounds (x y : Z) : bool :=
  (0 <=? x) && (x <? 256) && (0 <=? y) && (y <? 256).

(** [im.Set(x, y, c)]: a point outside of the rectangle is ignored. *)
Definition Image_Set (im : Image) (x y : Z) (c : Color) : Image :=
  if in_bounds x y
  then {| fill := fill im; drawn := <[(x, y) := c]> (drawn im) |}
  else im.

Definition Image_At (im : Image) (x y : Z) : Color :=
  default (fill im) (drawn im !! (x, y)).

(** [image.NewAlpha(image.Rect(0, 0, 256, 256))] *)
Definition NewAlpha : Image := {| fill := Transparent; drawn := ∅ |}.

(** The raster of the package variable [black], as [init] paints it. *)
Definition black_image : Image := {| fill := Black; drawn := ∅ |}.

(** A [Tile] value refers to a raster; two tiles with the same reference
    are the same raster, and drawing on one shows in the other. *)
Definition Tile : Type := nat.

(** *** CacheServer *)

(** The mutex is left out: the model is sequential.  [m = None] is the nil
    map of a CacheServer that was not made by NewCacheServer. *)
Record CacheServer : Type := mkCache {
  maxTiles : Z;
  m : option (gmap key Tile)
}.

(** [func NewCacheServer(maxTiles int) *CacheServer] *)
Definition NewCacheServer (maxTiles : Z) : CacheServer :=
  {| maxTiles := maxTiles; m := Some ∅ |}.

(** [var c CacheServer] *)
Definition zero_CacheServer : CacheServer := {| maxTiles := 0; m := None |}.

(** The [Get] methods of the cache, disk and remote servers return either
    [(tile, nil)] or [(nil, err)]: a sum. *)
Abbreviation result := (Tile + error)%type.

(** [func (c *CacheServer) Get(z, x, y int) (Tile, error)]; reading a nil
    map finds nothing. *)
Definition CacheServer_Get (c : CacheServer) (z x y : Z) : Res result :=
  '(x, y) ← normalizeTile z x y;
  match m c ≫= (.!! (z, x, y)) with
  | None => Val (inr NotCached)
  | Some t => Val (inl t)
  end.

(** [func (c *CacheServer) Add(z, x, y int, t Tile)] *)
Definition CacheServer_Add (c : CacheServer) (z x y : Z) (t : Tile)
  : Res CacheServer :=
  '(x, y) ← normalizeTile z x y;
  match m c with
  | None => Val c
  | Some mp =>
      if (maxTiles c =? 0) || (Z.of_nat (size mp) <? maxTiles c)
      then Val {| maxTiles := maxTiles c; m := Some (<[(z, x, y) := t]> mp) |}
      else Val c
  end.

(** A run of Add calls, in order. *)
Fixpoint CacheServer_AddAll (c : CacheServer) (l : list (key * Tile))
  : Res CacheServer :=
  match l with
  | [] => Val c
  | ((z, x, y), t) :: l' =>
      c' ← CacheServer_Add c z x y t;
      CacheServer_AddAll c' l'
  end.

(** *** PointServer *)

Record PointServer : Type := mkPointServer {
  PColor : Color;            (* field Color *)
  File : string;
  coords : list LatLon
}.

(** A [for _, a := range l] loop whose body updates [s]. *)
Fixpoint for_each {A S : Type} (body : S -> A -> Res S) (l : list A) (s : S)
  : Res S :=
  match l with
  | [] => Val s
  | a :: l' => s' ← body s a; for_each body l' s'
  end.

(** *** SparsePointServer *)

Record SparsePointServer : Type := mkSparse {
  sps_z : Z;                              (* field z *)
  sps_points : gmap point (list point);   (* field points *)
  sps_keys : list point;                  (* field keys *)
  sps_p : Z                               (* field p *)
}.

(** [func (s *SparsePointServer) Get(z, x, y int) (Tile, error)]; the tile
    is a new raster, returned by value here. *)
Definition SparsePointServer_Get (s : SparsePointServer) (z x y : Z)
  : option Image * option error :=
  if negb (z =? sps_z s) then (None, Some (ZoomMismatch z (sps_z s)))
  else
    let im :=
      match sps_points s !! (x, y) with
      | Some pts =>
          fold_left (fun im pt => Image_Set im pt.1 pt.2 Opaque) pts NewAlpha
      | None => NewAlpha
      end in
    (Some im, None).

(** What [Next] would hand out for the [i]-th key if it asked [Get] for that
    key at the server's zoom level. *)
Definition SparsePointServer_tile_of_key (s : SparsePointServer) (k : point)
  : option Image * option error :=
  SparsePointServer_Get s (sps_z s) k.1 k.2.

(** [func (s *SparsePointServer) Next() (z, x, y int, t Tile, err error)].
    The named results [z], [x] and [y] are zero when [s.Get(z, x, y)] is
    called. *)
Definition SparsePointServer_Next (s : SparsePointServer)
  : Res ((Z * Z * Z * option Image * option error) * SparsePointServer) :=
  let z := 0 in
  let x := 0 in
  let y := 0 in
  if Z.of_nat (length (sps_keys s)) <=? sps_p s
  then Val ((0, 0, 0, None, Some EOF), s)
  else
    match (if sps_p s <? 0 then None else sps_keys s !! Z.to_nat (sps_p s)) with
    | None => Panic "index out of range"
    | Some key =>
        let s' := {| sps_z := sps_z s; sps_points := sps_points s;
                     sps_keys := sps_keys s; sps_p := sps_p s + 1 |} in
        let '(t, err) := SparsePointServer_Get s' z x y in
        Val ((sps_z s, key.1, key.2, t, err), s')
    end.

(** *** The world of the combined server *)

Definition LocalServer : Type := string.
Definition HttpServer : Type := string.

(** Calls made to the layers, for counting them. *)
Inductive Event : Type :=
| EvCacheGet (k : key)
| EvCacheAdd (k : key) (t : Tile)
| EvLocalGet (dir : LocalServer) (k : key)
| EvLocalAdd (dir : LocalServer) (k : key) (t : Tile)
| EvHttpGet (url : HttpServer) (k : key)
| EvLogPrint.

(** The mutable state a CombinedServer works on.
    - [cache] is the CacheServer its [Cache] pointer refers to ([None]: the
      pointer is nil);
    - [store] holds the rasters that tiles refer to;
    - [disk] holds the files [dir/z/x/y.png] that decode to a 256x256 png;
    - [net] is what the server at a base URL answers with status OK and a
      256x256 png;
    - [trace] lists the calls made so far, oldest first.
    A file or response that is missing or does not decode is an error of the
    layer's Get; writing a file succeeds. *)
Record World : Type := mkWorld {
  cache : option CacheServer;
  store : gmap Tile Image;
  disk : gmap (string * key) Image;
  net : HttpServer -> key -> option Image;
  trace : list Event
}.

Definition set_cache (c : option CacheServer) (w : World) : World :=
  {| cache := c; store := store w; disk := disk w; net := net w;
     trace := trace w |}.
Definition set_store (s : gmap Tile Image) (w : World) : World :=
  {| cache := cache w; store := s; disk := disk w; net := net w;
     trace := trace w |}.
Definition set_disk (d : gmap (string * key) Image) (w : World) : World :=
  {| cache := cache w; store := store w; disk := d; net := net w;
     trace := trace w |}.
Definition log_event (e : Event) (w : World) : World :=
  {| cache := cache w; store := store w; disk := disk w; net := net w;
     trace := trace w ++ [e] |}.

(** The package variable [black]. *)
Definition black : Tile := 0%nat.

(** A decoded png is a new raster: its reference is none in use. *)
Definition new_tile (w : World) : Tile := fresh ({[black]} ∪ dom (store w)).

Definition alloc (im : Image) (w : World) : Tile * World :=
  let t := new_tile w in
  (t, set_store (<[t := im]> (store w)) w).

(** [t.Set(x, y, c)] *)
Definition Tile_Set (t : Tile) (x y : Z) (c : Color) (w : World) : World :=
  set_store (alter (fun im => Image_Set im x y c) t (store w)) w.

(** [c.Cache.Get(z, x, y)] *)
Definition Cache_Get (z x y : Z) (w : World) : Res (result * World) :=
  match cache w with
  | None => Panic "nil pointer dereference"
  | Some c =>
      r ← CacheServer_Get c z x y;
      Val (r, log_event (EvCacheGet (z, x, y)) w)
  end.

(** [c.Cache.Add(z, x, y, t)] *)
Definition Cache_Add (z x y : Z) (t : Tile) (w : World) : Res World :=
  match cache w with
  | None => Panic "nil pointer dereference"
  | Some c =>
      c' ← CacheServer_Add c z x y t;
      Val (set_cache (Some c') (log_event (EvCacheAdd (z, x, y) t) w))
  end.

(** [func (l LocalServer) Get(z, x, y int) (Tile, error)] *)
Definition LocalServer_Get (l : LocalServer) (z x y : Z) (w : World)
  : Res (result * World) :=
  '(x, y) ← normalizeTile z x y;
  let w := log_event (EvLocalGet l (z, x, y)) w in
  match disk w !! (l, (z, x, y)) with
  | None => Val (inr IOError, w)
  | Some im => let '(t, w) := alloc im w in Val (inl t, w)
  end.

(** [func (l LocalServer) Add(z, x, y int, t Tile) error] *)
Definition LocalServer_Add (l : LocalServer) (z x y : Z) (t : Tile) (w : World)
  : Res (option error * World) :=
  '(x, y) ← normalizeTile z x y;
  let w := log_event (EvLocalAdd l (z, x, y) t) w in
  if bool_decide (l = "") then Val (Some LocalPathUnset, w)
  else
    match store w !! t with
    | None => Val (Some IOError, w)
    | Some im => Val (None, set_disk (<[(l, (z, x, y)) := im]> (disk w)) w)
    end.

(** [func (s HttpServer) Get(z, x, y int) (Tile, error)] *)
Definition HttpServer_Get (s : HttpServer) (z x y : Z) (w : World)
  : Res (result * World) :=
  '(x, y) ← normalizeTile z x y;
  let w := log_event (EvHttpGet s (z, x, y)) w in
  match net w s (z, x, y) with
  | None => Val (inr IOError, w)
  | Some im => let '(t, w) := alloc im w in Val (inl t, w)
  end.

(** *** CombinedServer *)

(** The [Cache] field is a pointer; what it points to is [cache] of the
    world. *)
Record CombinedServer : Type := mkCombined {
  Points : option PointServer;
  Local : LocalServer;
  Http : HttpServer
}.

(** [c.Cache != nil && c.Cache.m != nil] *)
Definition cache_enabled (w : World) : bool :=
  match cache w with
  | Some c => match m c with Some _ => true | None => false end
  | None => false
  end.

Definition outcome : Type := Tile * option error * World.

(** [func (c CombinedServer) get(z, x, y int) (Tile, error)], one
    definition per [if] block; [rest] is the code below the block. *)
Definition get_cache (z x y : Z) (w : World) (rest : World -> Res outcome)
  : Res outcome :=
  if cache_enabled w then
    '(r, w) ← Cache_Get z x y w;
    match r with
    | inl t => Val (t, None, w)
    | inr _ => rest w
    end
  else rest w.

Definition get_local (c : CombinedServer) (z x y : Z) (w : World)
    (rest : World -> Res outcome) : Res outcome :=
  if negb (bool_decide (Local c = "")) then
    '(r, w) ← LocalServer_Get (Local c) z x y w;
    match r with
    | inl t =>
        w ← (if cache_enabled w then Cache_Add z x y t w else Val w);
        Val (t, None, w)
    | inr _ => rest w
    end
  else rest w.

Definition get_http (c : CombinedServer) (z x y : Z) (w : World)
    (rest : World -> Res outcome) : Res outcome :=
  if negb (bool_decide (Http c = "")) then
    '(r, w) ← HttpServer_Get (Http c) z x y w;
    match r with
    | inl t =>
        w ← (if negb (bool_decide (Local c = ""))
             then '(_, w) ← LocalServer_Add (Local c) z x y t w; Val w
             else Val w);
        w ← (if cache_enabled w then Cache_Add z x y t w else Val w);
        Val (t, None, w)
    | inr _ => rest (log_event EvLogPrint w)
    end
  else rest w.

Definition get (c : CombinedServer) (z x y : Z) (w : World) : Res outcome :=
  '(x, y) ← normalizeTile z x y;
  get_cache z x y w (fun w =>
  get_local c z x y w (fun w =>
  get_http c z x y w (fun w =>
  Val (black, None, w)))).

Section WithMath.
Variable M : MathLib.

(** [func (p *PointServer) Get(z, x, y int) (Tile, error)]; the tile is a
    new raster, returned by value here. *)
Definition PointServer_Get (p : PointServer) (z x y : Z)
  : Res (Image * option error) :=
  im ← for_each (fun im c =>
          '(xy, err) ← LatLon_XY M c z;
          match err with
          | Some _ =>
              if (X xy =? x) && (Y xy =? y)
              then Val (Image_Set im (XP xy) (YP xy) Opaque)
              else Val im
          | None => Val im
          end) (coords p) NewAlpha;
  Val (im, None).

(** The loop of NewSparsePointServer. *)
Fixpoint SparsePointServer_fill (z : Z) (pts : list LatLon)
    (s : SparsePointServer)
  : Res (option SparsePointServer * option Coord.error) :=
  match pts with
  | [] => Val (Some s, None)
  | ll :: rest =>
      '(xy, err) ← LatLon_XY M ll z;
      match err with
      | Some e => Val (None, Some e)
      | None =>
          let key := (X xy, Y xy) in
          let '(old, ok) :=
            match sps_points s !! key with
            | Some l => (l, true)
            | None => ([], false)
            end in
          let new := old ++ [(XP xy, YP xy)] in
          SparsePointServer_fill z rest
            {| sps_z := sps_z s;
               sps_points := <[key := new]> (sps_points s);
               sps_keys := if ok then sps_keys s else sps_keys s ++ [key];
               sps_p := sps_p s |}
      end
  end.

(** [func NewSparsePointServer(z int, points []LatLon)], which returns the
    server and an error. *)
Definition NewSparsePointServer (z : Z) (points : list LatLon)
  : Res (option SparsePointServer * option Coord.error) :=
  if (z <? 0) || (24 <? z) then Val (None, Some ZoomRangeError)
  else
    SparsePointServer_fill z points
      {| sps_z := z; sps_points := ∅; sps_keys := []; sps_p := 0 |}.

(** [func (c CombinedServer) Get(z, x, y int) (Tile, error)] *)
Definition Get (c : CombinedServer) (z x y : Z) (w : World) : Res outcome :=
  '(t, err, w) ← get c z x y w;
  match err with
  | Some e => Val (t, Some e, w)
  | None =>
      match Points c with
      | None => Val (t, None, w)
      | Some ps =>
          w ← for_each (fun w ll =>
                 '(xy, err) ← LatLon_XY M ll z;
                 match err with
                 | None =>
                     if (X xy =? x) && (Y xy =? y)
                     then Val (Tile_Set t (XP xy) (YP xy) (PColor ps) w)
                     else Val w
                 | Some _ => Val w
                 end) (coords ps) w;
          Val (t, None, w)
      end
  end.

End WithMath.

End Tile.

(** ** orux/orux.go *)

Module Orux.
Import Coord.

(** [var tileLimit = int64(40)] *)
Definition tileLimit : Z := 40.

Record Map : Type := mkMap {
  TopLeft : LatLon;
  BottomRight : LatLon;
  ZoomLevels : list Z
}.

Inductive error : Type :=
| CoordError (e : Coord.error)   (* an error of LatLon.XY, passed on *)
| WrongCorners                   (* "wrong definition for top left or ..." *)
| TooLarge (n limit : Z).        (* "requested map is too large: ..." *)

(** What Encode does to the outside, in order. *)
Inductive Effect : Type :=
| Mkdir (name : string)
| Sqlite3 (name : string) (requests : list (Z * Z * Z))
| WriteXML (name : string) (layers : list (Z * Z * Z)).

(** Arithmetic of [int] and [int64] wraps around. *)
Definition wrap64 (n : Z) : Z := (n + 2 ^ 63) mod 2 ^ 64 - 2 ^ 63.

Section WithMath.
Variable M : MathLib.

(** The loop of [func (m Map) Count() (int64, error)]. *)
Fixpoint Count_loop (topLeft bottomRight : LatLon) (zs : list Z) (sum : Z)
  : Res (Z * option error) :=
  match zs with
  | [] => Val (sum, None)
  | z :: zs' =>
      '(xy, err) ← LatLon_XY M topLeft z;
      match err with
      | Some e => Val (0, Some (CoordError e))
      | None =>
          let tl := xy in
          '(xy, err) ← LatLon_XY M bottomRight z;
          match err with
          | Some e => Val (0, Some (CoordError e))
          | None =>
              let br := xy in
              if (X br <? X tl) || (Y br <? Y tl)
              then Val (0, Some WrongCorners)
              else
                Count_loop topLeft bottomRight zs'
                  (wrap64 (sum + wrap64 (wrap64 (X br - X tl)
                                         * wrap64 (Y br - Y tl))))
          end
      end
  end.

(** [func (m Map) Count() (int64, error)] *)
Definition Count (m : Map) : Res (Z * option error) :=
  Count_loop (TopLeft m) (BottomRight m) (ZoomLevels m) 0.

(** The tiles [func (m Map) sqlitePipe] asks the tile server for, in order:
    for every zoom level, [x] from [tl.X] to [br.X] and, within, [y] from
    [tl.Y] to [br.Y], both ends included.  The errors of XY are dropped
    there. *)
Fixpoint sqlitePipe (topLeft bottomRight : LatLon) (zs : list Z)
  : Res (list (Z * Z * Z)) :=
  match zs with
  | [] => Val []
  | z :: zs' =>
      '(tl, _) ← LatLon_XY M topLeft z;
      '(br, _) ← LatLon_XY M bottomRight z;
      let level :=
        x ← seqZ (X tl) (X br - X tl + 1);
        y ← seqZ (Y tl) (Y br - Y tl + 1);
        [(z, x, y)] in
      others ← sqlitePipe topLeft bottomRight zs';
      Val (level ++ others)
  end.

(** [func (m Map) expandTileCorners(zoom int)] *)
Definition expandTileCorners (m : Map) (zoom : Z)
  : Res (LatLon * LatLon * Z * Z * option Coord.error) :=
  let zero := mkLatLon 0%float 0%float in
  '(xy, err) ← LatLon_XY M (TopLeft m) zoom;
  match err with
  | Some e => Val (zero, zero, 0, 0, Some e)
  | None =>
      tl ← XY_LatLon M {| X := X xy; Y := Y xy; XP := 0; YP := 0;
                          Zoom := Zoom xy |};
      let nx := X xy in
      let ny := Y xy in
      '(xy, err) ← LatLon_XY M (BottomRight m) zoom;
      match err with
      | Some e => Val (tl, zero, 0, 0, Some e)
      | None =>
          br ← XY_LatLon M {| X := X xy; Y := Y xy; XP := 255; YP := 255;
                              Zoom := Zoom xy |};
          Val (tl, br, X xy - nx + 1, Y xy - ny + 1, None)
      end
  end.

(** The layers of [func (m Map) WriteXML]: zoom, Xmax and Ymax per level. *)
Fixpoint xml_layers (m : Map) (zs : list Z)
  : Res (list (Z * Z * Z) * option Coord.error) :=
  match zs with
  | [] => Val ([], None)
  | z :: zs' =>
      '(_, _, nx, ny, err) ← expandTileCorners m z;
      match err with
      | Some e => Val ([], Some e)
      | None =>
          '(ls, err) ← xml_layers m zs';
          Val ((z, nx, ny) :: ls, err)
      end
  end.

(** [func (m Map) Encode(name string, ts tile.TileServer) error], with the
    directory, the sqlite3 process and the index file taken to succeed once
    the size guard has let the map through. *)
Definition Encode (m : Map) (name : string)
  : Res (list Effect * option error) :=
  '(n, err) ← Count m;
  match err with
  | Some e => Val ([], Some e)
  | None =>
      if tileLimit <? n then Val ([], Some (TooLarge n tileLimit))
      else
        reqs ← sqlitePipe (TopLeft m) (BottomRight m) (ZoomLevels m);
        '(layers, err) ← xml_layers m (ZoomLevels m);
        Val ([Mkdir name; Sqlite3 name reqs; WriteXML name layers],
             option_map CoordError err)
  end.

End WithMath.

End Orux.

(** ** Statements about the servers *)

Module Stated.
Import Coord Tile.

(** The key under which the cache files a request. *)
Definition normalize_key (k : key) : key :=
  let '(z, x, y) := k in (z, x mod 2 ^ z, y mod 2 ^ z).

(** [Get] on key [k] returns tile [t] and no error. *)
Definition retrievable (c : CacheServer) (k : key) (t : Tile) : Prop :=
  CacheServer_Get c k.1.1 k.1.2 k.2 = Val (inl t).

(** [Get] on key [k] returns the error "tile is not cached". *)
Definition not_cached (c : CacheServer) (k : key) : Prop :=
  CacheServer_Get c k.1.1 k.1.2 k.2 = Val (inr NotCached).

Definition zoom_ok (k : key) : Prop := 0 <= k.1.1 <= 24.

(** The admission bound for any [N > K] additions whose [(z, x, y)] are
    pairwise different: the first [K] tiles can be retrieved, the later ones
    cannot. *)
Definition admission_bound_on_distinct_keys
    (K : Z) (adds : list (key * Tile)) : Prop :=
  0 < K -> K < Z.of_nat (length adds) ->
  NoDup adds.*1 -> Forall zoom_ok adds.*1 ->
  exists c, CacheServer_AddAll (NewCacheServer K) adds = Val c /\
    forall (i : nat) k t, adds !! i = Some (k, t) ->
      (Z.of_nat i < K -> retrievable c k t) /\
      (K <= Z.of_nat i -> ~ retrievable c k t).

(** The additions a new cache of capacity [K] lets in, and the map entry an
    addition makes. *)
Definition let_in (K : Z) (adds : list (key * Tile)) : list (key * Tile) :=
  if K =? 0 then adds else take (Z.to_nat K) adds.

Definition file_under (mp : gmap key Tile) (a : key * Tile) : gmap key Tile :=
  <[normalize_key a.1 := a.2]> mp.

(** What a raster made by PointServer.Get turns out to show for tile
    [(x, y)]: nothing but pixel (0,0), on tile (0,0) only, and only if some
    point of the list failed to convert. *)
Definition only_failures (M : MathLib) (p : PointServer) (z x y : Z)
    (im : Image) : Prop :=
  fill im = Transparent /\
  forall q c, drawn im !! q = Some c ->
    q = (0, 0) /\ c = Opaque /\ x = 0 /\ y = 0 /\
    exists ll xy e, ll ∈ coords p /\ LatLon_XY M ll z = Val (xy, Some e).

(** The events a run added to the trace. *)
Definition new_events (before after : World) : list Event :=
  drop (length (trace before)) (trace after).

(** The tile the cache holds under key [k], if there is a cache and it has
    one. *)
Definition cached (w : World) (k : key) : option Tile :=
  match cache w with
  | Some c => match m c with Some mp => mp !! k | None => None end
  | None => None
  end.

(** The cache is there and would let one more tile in. *)
Definition cache_has_room (w : World) : bool :=
  match cache w with
  | Some c =>
      match m c with
      | Some mp => (maxTiles c =? 0) || (Z.of_nat (size mp) <? maxTiles c)
      | None => false
      end
  | None => false
  end.

(** The local layer, the remote layer is configured. *)
Definition local_on (c : CombinedServer) : bool :=
  negb (bool_decide (Local c = "")).
Definition http_on (c : CombinedServer) : bool :=
  negb (bool_decide (Http c = "")).

(** No layer has the tile: each one is unconfigured or misses. *)
Definition all_miss (c : CombinedServer) (w : World) (k : key) : Prop :=
  cached w k = None /\
  (Local c = "" \/ disk w !! (Local c, k) = None) /\
  (Http c = "" \/ net w (Http c) k = None).

(** [w'] is [w] with the events [evs] added to the trace and nothing else
    changed. *)
Definition only_logged (w w' : World) (evs : list Event) : Prop :=
  cache w' = cache w /\ store w' = store w /\ disk w' = disk w /\
  net w' = net w /\ trace w' = trace w ++ evs.

(** One event if the layer is there, none otherwise. *)
Definition when (b : bool) (e : Event) : list Event := if b then [e] else [].

(** The request misses the cache (or there is none) and its file is on the
    local disk. *)
Definition local_hit (c : CombinedServer) (w : World) (k : key) : Prop :=
  cached w k = None /\
  Local c <> "" /\
  is_Some (disk w !! (Local c, k)).

(** After a local-disk hit, a second [get] of the same coordinates does not
    read the local disk. *)
Definition second_get_spares_disk
    (c : CombinedServer) (w : World) (z x y : Z) : Prop :=
  local_hit c w (normalize_key (z, x, y)) ->
  forall o1 o2,
    get c z x y w = Val o1 ->
    get c z x y o1.2 = Val o2 ->
    forall k, EvLocalGet (Local c) k ∉ new_events o1.2 o2.2.

End Stated.

(** ** Inputs the model is run on *)

Module Sample.
Import Coord Tile Orux.

(** A point on the equator and the north pole. *)
Definition equator_and_pole : PointServer :=
  {| PColor := Black; File := "points.txt";
     coords := [mkLatLon 0 0; mkLatLon 90 0] |}.

(** A combined server with a local directory and no remote server. *)
Definition disk_only : CombinedServer :=
  {| Points := None; Local := "tiles"; Http := "" |}.

Definition world_of (c : option CacheServer) (d : gmap (string * key) Image)
  : World :=
  {| cache := c; store := {[black := black_image]}; disk := d;
     net := fun _ _ => None; trace := [] |}.

(** An unlimited empty cache, and the file of tile (1,1,1) on the disk. *)
Definition roomy_world : World :=
  world_of (Some (NewCacheServer 0)) {[("tiles", (1, 1, 1)) := NewAlpha]}.

(** A cache for one tile that holds one, and the same file on the disk. *)
Definition full_world : World :=
  world_of (Some {| maxTiles := 1; m := Some {[(1, 0, 0) := black]} |})
           {[("tiles", (1, 1, 1)) := NewAlpha]}.

(** An empty cache and an empty disk. *)
Definition bare_world : World := world_of (Some (NewCacheServer 10)) ∅.

(** A strip one tile wide and 54 tiles high at zoom level 7. *)
Definition strip : Map :=
  {| TopLeft := mkLatLon 60 1; BottomRight := mkLatLon (-60) 2;
     ZoomLevels := [7] |}.

(** The map of orux_test.go: from (53.58914, 9.99786) to
    (53.57668, 10.01678), zoom levels 13 and 15. *)
Definition alster : Map :=
  {| TopLeft := mkLatLon 0x1.acb68f08461fap+5 0x1.3fee78183f91ep+3;
     BottomRight := mkLatLon 0x1.ac9d0a67620efp+5 0x1.40897635e742ap+3;
     ZoomLevels := [13; 15] |}.

End Sample.

(** * Properties *)

Import Coord Tile Stated.

(** ** Zoom levels and wrap-around *)

Section Normalize.

Lemma checkZoom_ok (z : Z) : 0 <= z <= 24 -> checkZoom z = Val tt.
Proof.
  intros Hz. unfold checkZoom.
  destruct (Z.ltb_spec z 0); [lia|]. destruct (Z.ltb_spec 24 z); [lia|]. done.
Qed.

Lemma checkZoom_panics (z : Z) :
  ~ 0 <= z <= 24 -> is_panic (checkZoom z) = true.
Proof.
  intros Hz. unfold checkZoom.
  destruct (Z.ltb_spec z 0); [done|]. destruct (Z.ltb_spec 24 z); [done|]. lia.
Qed.

Lemma NumTiles_pow (z : Z) : 0 <= z <= 24 -> NumTiles z = 2 ^ z.
Proof.
  intros Hz. unfold NumTiles.
  destruct (Z.ltb_spec z 0); [lia|]. destruct (Z.ltb_spec 24 z); [lia|].
  simpl. apply Z.shiftl_1_l.
Qed.

(** Go's remainder followed by the correction of a negative result is the
    floored modulus. *)
Lemma go_rem_wrap (x n : Z) :
  0 < n -> (if Z.rem x n <? 0 then Z.rem x n + n else Z.rem x n) = x mod n.
Proof.
  intros Hn.
  pose proof (Z.quot_rem' x n) as Hqr.
  pose proof (Z.rem_bound_abs x n ltac:(lia)) as Habs.
  destruct (Z.ltb_spec (Z.rem x n) 0) as [Hneg | Hpos].
  - apply (Z.mod_unique x n (x ÷ n - 1)); lia.
  - apply (Z.mod_unique x n (x ÷ n)); lia.
Qed.

Lemma normalizeTile_mod (z x y : Z) :
  0 <= z <= 24 -> normalizeTile z x y = Val (x mod 2 ^ z, y mod 2 ^ z).
Proof.
  intros Hz. unfold normalizeTile. rewrite checkZoom_ok by done. simpl.
  rewrite NumTiles_pow by done.
  assert (0 < 2 ^ z) by (apply Z.pow_pos_nonneg; lia).
  by rewrite !go_rem_wrap.
Qed.

Lemma normalizeTile_idem (z x y x' y' : Z) :
  normalizeTile z x y = Val (x', y') -> normalizeTile z x' y' = Val (x', y').
Proof.
  intros H.
  destruct (decide (0 <= z <= 24)) as [Hz | Hz].
  - rewrite normalizeTile_mod in H by done. injection H as <- <-.
    rewrite normalizeTile_mod by done.
    assert (0 < 2 ^ z) by (apply Z.pow_pos_nonneg; lia).
    by rewrite !Z.mod_mod by lia.
  - unfold normalizeTile in H.
    pose proof (checkZoom_panics z Hz) as Hp.
    destruct (checkZoom z); done.
Qed.

(** The congruence of the result with the input, by divisibility. *)
Lemma mod_congruent (x n : Z) : 0 < n -> (n | x mod n - x).
Proof.
  intros Hn. exists (- (x / n)).
  pose proof (Z.div_mod x n ltac:(lia)). lia.
Qed.

End Normalize.

(** C9. For a zoom level [z] in [0,24] and any integers [x] and [y],
    [normalizeTile z x y] returns coordinates [x'] and [y'] that lie in
    [0, 2^z) and are congruent to [x] and [y] modulo [2^z] (so they are
    [x mod 2^z] and [y mod 2^z]; a negative remainder is moved up by the
    modulus), and [normalizeTile z (-1) y] is [normalizeTile z (2^z - 1) y]. *)
Theorem normalizeTile_wraps (z x y : Z) :
  0 <= z <= 24 ->
  (exists x' y',
      normalizeTile z x y = Val (x', y') /\
      0 <= x' < 2 ^ z /\ 0 <= y' < 2 ^ z /\
      (2 ^ z | x' - x) /\ (2 ^ z | y' - y) /\
      x' = Z.rem x (2 ^ z) + (if Z.rem x (2 ^ z) <? 0 then 2 ^ z else 0) /\
      y' = Z.rem y (2 ^ z) + (if Z.rem y (2 ^ z) <? 0 then 2 ^ z else 0)) /\
  normalizeTile z (-1) y = normalizeTile z (2 ^ z - 1) y.
Proof.
  intros Hz.
  assert (0 < 2 ^ z) as Hpos by (apply Z.pow_pos_nonneg; lia).
  split.
  - exists (x mod 2 ^ z), (y mod 2 ^ z).
    split; [by apply normalizeTile_mod|].
    split; [by apply Z.mod_pos_bound|].
    split; [by apply Z.mod_pos_bound|].
    split; [by apply mod_congruent|].
    split; [by apply mod_congruent|].
    rewrite <- !(go_rem_wrap _ (2 ^ z)) by done.
    split.
    + destruct (Z.rem x (2 ^ z) <? 0); lia.
    + destruct (Z.rem y (2 ^ z) <? 0); lia.
  - rewrite !normalizeTile_mod by done. do 2 f_equal.
    replace (-1) with (2 ^ z - 1 + (-1) * 2 ^ z) by lia.
    by rewrite Z.mod_add by lia.
Qed.

Lemma normalizeTile_wraps_witness :
  0 <= 3 <= 24 /\
  normalizeTile 3 (-1) 13 = Val (7, 5) /\
  normalizeTile 3 (-1) 13 = normalizeTile 3 (2 ^ 3 - 1) 13.
Proof.
  split; [lia|].
  split; [reflexivity|].
  exact (proj2 (normalizeTile_wraps 3 0 13 ltac:(lia))).
Defined.

(** ** CacheServer *)

Section Cache.

Lemma CacheServer_Get_lookup (c : CacheServer) (z x y : Z) :
  0 <= z <= 24 ->
  CacheServer_Get c z x y =
    match m c ≫= (.!! normalize_key (z, x, y)) with
    | Some t => Val (inl t)
    | None => Val (inr NotCached)
    end.
Proof.
  intros Hz. unfold CacheServer_Get. rewrite normalizeTile_mod by done.
  simpl. by destruct (m c ≫= _).
Qed.

Lemma CacheServer_Add_insert (c : CacheServer) (z x y : Z) (t : Tile) :
  0 <= z <= 24 ->
  CacheServer_Add c z x y t =
    Val match m c with
        | None => c
        | Some mp =>
            if (maxTiles c =? 0) || (Z.of_nat (size mp) <? maxTiles c)
            then {| maxTiles := maxTiles c;
                    m := Some (<[normalize_key (z, x, y) := t]> mp) |}
            else c
        end.
Proof.
  intros Hz. unfold CacheServer_Add. rewrite normalizeTile_mod by done.
  simpl. destruct (m c); [|done]. by destruct (_ || _).
Qed.

End Cache.

(** C10. On a CacheServer whose map is nil (one that NewCacheServer did not
    make), for a zoom level in [0,24] and any [x], [y]: Get returns the
    not-cached error and does not panic, Add returns the server as it was,
    and so does any run of Adds, after which Get still finds nothing. *)
Theorem zero_CacheServer_is_empty (mt z x y : Z) (t : Tile)
    (adds : list (key * Tile)) :
  0 <= z <= 24 ->
  Forall zoom_ok adds.*1 ->
  let c := {| maxTiles := mt; m := None |} in
  CacheServer_Get c z x y = Val (inr NotCached) /\
  CacheServer_Add c z x y t = Val c /\
  CacheServer_AddAll c adds = Val c.
Proof.
  intros Hz Hadds c. split; [|split].
  - by rewrite CacheServer_Get_lookup.
  - by rewrite CacheServer_Add_insert.
  - induction adds as [|[[[z' x'] y'] t'] adds IH]; [done|].
    apply Forall_cons in Hadds as [Hk Hadds]. simpl.
    rewrite CacheServer_Add_insert by done. simpl. by apply IH.
Qed.

Lemma zero_CacheServer_is_empty_witness :
  CacheServer_Get zero_CacheServer 5 (-3) 40 = Val (inr NotCached) /\
  CacheServer_Add zero_CacheServer 5 (-3) 40 7%nat = Val zero_CacheServer /\
  CacheServer_AddAll zero_CacheServer [((1, 0, 1), 3%nat); ((2, 5, 0), 4%nat)]
    = Val zero_CacheServer.
Proof.
  apply (zero_CacheServer_is_empty 0 5 (-3) 40 7%nat
           [((1, 0, 1), 3%nat); ((2, 5, 0), 4%nat)]).
  - lia.
  - repeat constructor; unfold zoom_ok; simpl; lia.
Defined.

Section Admission.

Lemma foldl_file_notin (l : list (key * Tile)) (mp : gmap key Tile) (k : key) :
  k ∉ normalize_key <$> l.*1 -> foldl file_under mp l !! k = mp !! k.
Proof.
  revert mp. induction l as [|a l IH]; intros mp Hk; [done|].
  simpl in *. apply not_elem_of_cons in Hk as [Hne Hk].
  rewrite IH by done. unfold file_under. by rewrite lookup_insert_ne.
Qed.

Lemma foldl_file_in (l : list (key * Tile)) (mp : gmap key Tile)
    (i : nat) (k : key) (t : Tile) :
  NoDup (normalize_key <$> l.*1) ->
  l !! i = Some (k, t) ->
  foldl file_under mp l !! normalize_key k = Some t.
Proof.
  revert mp i. induction l as [|a l IH]; intros mp i Hnd Hi; [done|].
  simpl in Hnd. apply NoDup_cons in Hnd as [Hfresh Hnd].
  destruct i as [|i]; simpl in *.
  - injection Hi as ->. rewrite foldl_file_notin by done.
    unfold file_under. simpl. by rewrite lookup_insert_eq.
  - by eapply IH.
Qed.

Lemma CacheServer_AddAll_files (K : Z) (adds : list (key * Tile))
    (mp : gmap key Tile) :
  Forall zoom_ok adds.*1 ->
  NoDup (normalize_key <$> adds.*1) ->
  (forall k, k ∈ normalize_key <$> adds.*1 -> mp !! k = None) ->
  CacheServer_AddAll {| maxTiles := K; m := Some mp |} adds =
    Val {| maxTiles := K;
           m := Some (foldl file_under mp
                        (if K =? 0 then adds
                         else take (Z.to_nat K - size mp) adds)) |}.
Proof.
  revert mp. induction adds as [|[[[z x] y] t] adds IH]; intros mp Hz Hnd Hnew.
  - simpl. by destruct (K =? 0); rewrite ?take_nil.
  - simpl in Hz, Hnd. apply Forall_cons in Hz as [Hz1 Hz].
    apply NoDup_cons in Hnd as [Hfresh Hnd].
    cbn [CacheServer_AddAll]. rewrite CacheServer_Add_insert by done.
    cbn [mbind res_bind m maxTiles].
    assert (mp !! normalize_key (z, x, y) = None) as Hnone.
    { apply Hnew. simpl. left. }
    destruct (Z.eqb_spec K 0) as [-> | HK]; cbn [orb].
    + rewrite IH; [done | done | done |].
      intros k Hk. rewrite lookup_insert_ne; [apply Hnew; simpl; by right|].
      intros <-. done.
    + destruct (Z.ltb_spec (Z.of_nat (size mp)) K) as [Hroom | Hfull].
      * rewrite IH; [| done | done |].
        -- rewrite map_size_insert_None by done.
           replace (Z.to_nat K - size mp)%nat
             with (S (Z.to_nat K - S (size mp))) by lia.
           destruct (K =? 0) eqn:E; [lia|]. done.
        -- intros k Hk. rewrite lookup_insert_ne; [apply Hnew; simpl; by right|].
           intros <-. done.
      * rewrite IH; [| done | done |].
        -- replace (Z.to_nat K - size mp)%nat with 0%nat by lia.
           destruct (K =? 0) eqn:E; [lia|]. done.
        -- intros k Hk. apply Hnew. simpl. by right.
Qed.

Lemma NewCacheServer_AddAll (K : Z) (adds : list (key * Tile)) :
  Forall zoom_ok adds.*1 ->
  NoDup (normalize_key <$> adds.*1) ->
  CacheServer_AddAll (NewCacheServer K) adds =
    Val {| maxTiles := K; m := Some (foldl file_under ∅ (let_in K adds)) |}.
Proof.
  intros Hz Hnd. unfold NewCacheServer.
  rewrite CacheServer_AddAll_files by done.
  unfold let_in. rewrite map_size_empty. by rewrite Nat.sub_0_r.
Qed.

Lemma NoDup_let_in (K : Z) (adds : list (key * Tile)) :
  NoDup (normalize_key <$> adds.*1) ->
  NoDup (normalize_key <$> (let_in K adds).*1).
Proof.
  intros Hnd. unfold let_in. destruct (K =? 0); [done|].
  rewrite !fmap_take. eapply sublist_NoDup; [done | apply sublist_take].
Qed.

End Admission.

(** C6, as it holds.  Take a cache made with capacity [K >= 0] and a run of
    additions with zoom levels in [0,24] whose keys stay pairwise different
    once wrapped into the tile grid.  With [K > 0] the first [K] tiles added
    are returned by Get and Get answers not-cached for each later one; with
    the capacity 0 every tile added is returned; and Get answers not-cached
    for every key that is not the wrapped key of a tile let in. *)
Theorem cache_admission_bound (K : Z) (adds : list (key * Tile)) :
  0 <= K ->
  Forall zoom_ok adds.*1 ->
  NoDup (normalize_key <$> adds.*1) ->
  exists c,
    CacheServer_AddAll (NewCacheServer K) adds = Val c /\
    (forall (i : nat) k t, adds !! i = Some (k, t) ->
       (K = 0 \/ Z.of_nat i < K -> retrievable c k t) /\
       (0 < K <= Z.of_nat i -> not_cached c k)) /\
    (forall k, zoom_ok k ->
       normalize_key k ∉ normalize_key <$> (let_in K adds).*1 ->
       not_cached c k).
Proof.
  intros HK Hz Hnd. eexists. split; [by apply NewCacheServer_AddAll|].
  assert (forall k, zoom_ok k ->
            normalize_key k ∉ normalize_key <$> (let_in K adds).*1 ->
            not_cached {| maxTiles := K;
                          m := Some (foldl file_under ∅ (let_in K adds)) |} k)
    as Habsent.
  { intros [[z x] y] Hk Hout. unfold not_cached.
    rewrite CacheServer_Get_lookup by done. cbn [m mbind option_bind].
    by rewrite foldl_file_notin. }
  split; [|done].
  intros i k t Hi.
  assert (zoom_ok k) as Hk.
  { rewrite Forall_forall in Hz. apply Hz.
    apply list_elem_of_fmap. exists (k, t). split; [done|].
    by eapply list_elem_of_lookup_2. }
  split.
  - intros Hin. destruct k as [[z x] y]. unfold retrievable.
    rewrite CacheServer_Get_lookup by done. cbn [m mbind option_bind].
    erewrite foldl_file_in; [done | by apply NoDup_let_in |].
    unfold let_in. destruct (Z.eqb_spec K 0); [done|].
    rewrite lookup_take_lt; [done | lia].
  - intros [Hpos Hlate]. apply Habsent; [done|].
    unfold let_in. destruct (Z.eqb_spec K 0); [lia|].
    rewrite !fmap_take. intros Hin.
    apply list_elem_of_lookup in Hin as [j Hj].
    apply lookup_take_Some in Hj as [Hj Hlt].
    assert ((normalize_key <$> adds.*1) !! i = Some (normalize_key k)) as Hi'.
    { by rewrite !list_lookup_fmap, Hi. }
    pose proof (NoDup_lookup _ _ _ _ Hnd Hi' Hj). lia.
Qed.

Lemma cache_admission_bound_witness :
  exists c,
    CacheServer_AddAll (NewCacheServer 2)
      [((1, 0, 0), 10%nat); ((1, 1, 0), 11%nat); ((1, 2, 1), 12%nat)] = Val c /\
    retrievable c (1, 0, 0) 10%nat /\
    retrievable c (1, 1, 0) 11%nat /\
    not_cached c (1, 2, 1).
Proof.
  destruct (cache_admission_bound 2
              [((1, 0, 0), 10%nat); ((1, 1, 0), 11%nat); ((1, 2, 1), 12%nat)])
    as (c & Hrun & Hadds & _).
  - lia.
  - repeat constructor; unfold zoom_ok; simpl; lia.
  - compute_done.
  - exists c. split; [exact Hrun|].
    split; [apply (Hadds 0%nat); [reflexivity | lia]|].
    split; [apply (Hadds 1%nat); [reflexivity | lia]|].
    apply (Hadds 2%nat (1, 2, 1) 12%nat); [reflexivity | lia].
Defined.

(** C6, as stated, fails: with capacity 2, the keys (0,0,0), (0,1,0) and
    (1,0,0) are pairwise different, yet the first two wrap to the same tile
    of zoom level 0.  The second addition overwrites the first, the third
    still finds room: the first tile added is lost and the third one, added
    after [K] others, is returned by Get. *)
Lemma admission_bound_fails_on_wrapping_keys :
  ~ admission_bound_on_distinct_keys 2
      [((0, 0, 0), 1%nat); ((0, 1, 0), 2%nat); ((1, 0, 0), 3%nat)].
Proof.
  intros H. destruct H as (c & Hrun & Hget).
  - lia.
  - simpl. lia.
  - compute_done.
  - repeat constructor; unfold zoom_ok; simpl; lia.
  - vm_compute in Hrun. injection Hrun as <-.
    destruct (Hget 2%nat (1, 0, 0) 3%nat eq_refl) as [_ Hlate].
    apply Hlate; [lia|]. reflexivity.
Qed.

(** ** The projection *)

Section Projection.
Variable M : MathLib.

Lemma two_ok (z : Z) :
  0 <= z <= 24 -> two z = Val (F64.of_int (Z.shiftl 1 z)).
Proof.
  intros Hz. unfold two.
  destruct (Z.ltb_spec z 0); [lia|]. destruct (Z.leb_spec 25 z); [lia|]. done.
Qed.

Lemma MinLatitude_ok (z : Z) :
  0 <= z <= 24 -> exists minlat, MinLatitude M z = Val minlat.
Proof.
  intros Hz. unfold MinLatitude, XY_LatLon.
  rewrite checkZoom_ok by done. cbn [mbind res_bind Zoom].
  rewrite two_ok by done. cbn [mbind res_bind]. eauto.
Qed.

(** MinLatitude panics outside the zoom range; LatLon.XY checks the zoom
    level before it asks for the bound. *)
Lemma MinLatitude_panics (z : Z) :
  ~ 0 <= z <= 24 -> is_panic (MinLatitude M z) = true.
Proof.
  intros Hz. unfold MinLatitude.
  pose proof (checkZoom_panics z Hz). by destruct (checkZoom z).
Qed.

Lemma LatLon_XY_zoom_error (d : LatLon) (z : Z) :
  z < 0 \/ 24 < z -> LatLon_XY M d z = Val (XY_zero, Some ZoomRangeError).
Proof.
  intros Hz. unfold LatLon_XY.
  destruct (Z.ltb_spec z 0); [done|]. destruct (Z.ltb_spec 24 z); [done|]. lia.
Qed.

Lemma LatLon_XY_in_range (d : LatLon) (z : Z) (minlat : Degree) :
  0 <= z <= 24 ->
  MinLatitude M z = Val minlat ->
  LatLon_XY M d z =
    if (Lat d <? minlat)%float || (MaxLatitude <? Lat d)%float
    then Val (XY_zero, Some (LatitudeError (Lat d)))
    else
      let t := F64.of_int (Z.shiftl 1 z) in
      let x := ((Lon d + 180) / 360 * t)%float in
      let y := ((1 - Log M (Tan M (Radians (Lat d))
                            + 1 / Cos M (Radians (Lat d))) / Pi) / 2 * t)%float in
      Val ({| X := F64.to_int x;
              Y := F64.to_int y;
              Zoom := z;
              XP := F64.to_int (256 * (x - F64.of_int (F64.to_int x)));
              YP := F64.to_int (256 * (y - F64.of_int (F64.to_int y))) |},
           None).
Proof.
  intros Hz Hmin. unfold LatLon_XY.
  destruct (Z.ltb_spec z 0); [lia|]. destruct (Z.ltb_spec 24 z); [lia|].
  cbn [orb]. rewrite Hmin. cbn [mbind res_bind].
  destruct (_ || _); [done|].
  rewrite two_ok by done. done.
Qed.

Lemma LatLon_XY_no_panic (d : LatLon) (z : Z) :
  exists xy err, LatLon_XY M d z = Val (xy, err).
Proof.
  destruct (decide (0 <= z <= 24)) as [Hz | Hz].
  - destruct (MinLatitude_ok z Hz) as [minlat Hmin].
    rewrite (LatLon_XY_in_range d z minlat Hz Hmin).
    destruct (_ || _); eauto.
  - rewrite LatLon_XY_zoom_error by lia. eauto.
Qed.

(** A failed conversion hands back the zero address. *)
Lemma LatLon_XY_error_zero (d : LatLon) (z : Z) (xy : XY) (e : Coord.error) :
  LatLon_XY M d z = Val (xy, Some e) -> xy = XY_zero.
Proof.
  destruct (decide (0 <= z <= 24)) as [Hz | Hz].
  - destruct (MinLatitude_ok z Hz) as [minlat Hmin].
    rewrite (LatLon_XY_in_range d z minlat Hz Hmin).
    destruct (_ || _); intros [= <- <-]; done.
  - rewrite LatLon_XY_zoom_error by lia. by intros [= <- <-].
Qed.

(** A latitude that is not a number is neither below the lower bound nor
    above the upper one: it passes the check. *)
Lemma LatLon_XY_nan_latitude (lon : Degree) (z : Z) :
  0 <= z <= 24 -> exists xy, LatLon_XY M (mkLatLon nan lon) z = Val (xy, None).
Proof.
  intros Hz. destruct (MinLatitude_ok z Hz) as [minlat Hmin].
  rewrite (LatLon_XY_in_range _ z minlat Hz Hmin). cbn [Lat].
  rewrite ltb_spec. replace (Prim2SF nan) with S754_nan by reflexivity.
  replace (MaxLatitude <? nan)%float with false by reflexivity.
  cbn. eauto.
Qed.

End Projection.



(** ** PointServer *)

Section Points.
Variable M : MathLib.

Lemma PointServer_Get_loop (p : PointServer) (z x y : Z)
    (l : list LatLon) (im : Image) :
  (forall ll, ll ∈ l -> ll ∈ coords p) ->
  only_failures M p z x y im ->
  exists im',
    for_each (fun im c =>
        '(xy, err) ← LatLon_XY M c z;
        match err with
        | Some _ =>
            if (X xy =? x) && (Y xy =? y)
            then Val (Image_Set im (XP xy) (YP xy) Opaque)
            else Val im
        | None => Val im
        end) l im = Val im' /\
    only_failures M p z x y im'.
Proof.
  revert im. induction l as [|ll l IH]; intros im Hsub Hinv; [by exists im|].
  cbn [for_each].
  destruct (LatLon_XY_no_panic M ll z) as (xy & err & Hxy). rewrite Hxy.
  cbn [mbind res_bind].
  assert (forall ll', ll' ∈ l -> ll' ∈ coords p) as Hsub'.
  { intros ll' Hin. apply Hsub. by right. }
  destruct err as [e|]; [|by apply IH].
  pose proof (LatLon_XY_error_zero M ll z xy e Hxy) as ->. cbn [X Y XP YP XY_zero].
  destruct (Z.eqb_spec 0 x) as [<- |]; [|by apply IH].
  destruct (Z.eqb_spec 0 y) as [<- |]; [|by apply IH].
  cbn [andb mbind res_bind]. apply IH; [done|].
  destruct Hinv as [Hfill Hpix]. split; [done|].
  intros q c. unfold Image_Set. cbn [in_bounds Z.leb Z.ltb Z.compare andb drawn].
  intros Hq. apply lookup_insert_Some in Hq as [[<- <-] | [_ Hq]].
  - repeat split; try done. exists ll, XY_zero, e. split; [|done].
    apply Hsub. by left.
  - by apply Hpix.
Qed.

(** PointServer.Get draws nothing for a point that converts. *)
Lemma PointServer_Get_only_failures (p : PointServer) (z x y : Z) :
  exists im,
    PointServer_Get M p z x y = Val (im, None) /\ only_failures M p z x y im.
Proof.
  unfold PointServer_Get.
  destruct (PointServer_Get_loop p z x y (coords p) NewAlpha) as (im & -> & Hinv).
  - done.
  - split; [done|]. intros q c Hq. cbn [NewAlpha drawn] in Hq.
    by rewrite lookup_empty in Hq.
  - by exists im.
Qed.

End Points.

(** C8, on the code.  A point server holds the point (0°, 0°), which lies
    in tile (0,0) of zoom level 0 at pixel (128,128), and the point
    (90°, 0°), which has no tile address.  For tile (0,0) of zoom level 0,
    Get leaves pixel (128,128) transparent and sets pixel (0,0): the test on
    the error of the conversion is the wrong way round. *)
Theorem PointServer_Get_draws_failed_points :
  LatLon_XY RefMath.lib (mkLatLon 0 0) 0
    = Val ({| X := 0; Y := 0; XP := 128; YP := 128; Zoom := 0 |}, None) /\
  LatLon_XY RefMath.lib (mkLatLon 90 0) 0
    = Val (XY_zero, Some (LatitudeError 90)) /\
  exists im,
    PointServer_Get RefMath.lib Sample.equator_and_pole 0 0 0
      = Val (im, None) /\
    Image_At im 128 128 = Transparent /\
    Image_At im 0 0 = Opaque.
Proof.
  split; [by vm_compute|]. split; [by vm_compute|].
  eexists. split; [by vm_compute|]. split; reflexivity.
Qed.

(** ** SparsePointServer *)

Section Sparse.

(** Next asks Get for zoom level 0: on a server of another zoom level that
    still has keys to hand out it returns the key, no tile, and the error of
    Get. *)
Lemma SparsePointServer_Next_zoom_mismatch (s : SparsePointServer) (k : point) :
  sps_z s <> 0 ->
  0 <= sps_p s ->
  sps_keys s !! Z.to_nat (sps_p s) = Some k ->
  exists s',
    SparsePointServer_Next s =
      Val ((sps_z s, k.1, k.2, None, Some (ZoomMismatch 0 (sps_z s))), s') /\
    sps_p s' = sps_p s + 1.
Proof.
  intros Hz Hp Hk. unfold SparsePointServer_Next.
  pose proof (lookup_lt_Some _ _ _ Hk) as Hlen.
  destruct (Z.leb_spec (Z.of_nat (length (sps_keys s))) (sps_p s)); [lia|].
  destruct (Z.ltb_spec (sps_p s) 0); [lia|].
  rewrite Hk. unfold SparsePointServer_Get. cbn [sps_z].
  destruct (Z.eqb_spec 0 (sps_z s)); [congruence|].
  cbn [negb]. eexists. split; reflexivity.
Qed.

End Sparse.

(** C7, on the code.  The server built for zoom level 1 from the single
    point (0°, 0°) holds one tile, (1,1), with the point at pixel (0,0).
    Its first Next returns that key with no tile and the error "Get called
    with zoom level 0, but only 1 is available", where Get asked for the key
    at the server's zoom level returns the tile with the point on it. *)
Theorem SparsePointServer_Next_errs :
  exists s s',
    NewSparsePointServer RefMath.lib 1 [mkLatLon 0 0] = Val (Some s, None) /\
    sps_keys s = [(1, 1)] /\
    SparsePointServer_Next s
      = Val ((1, 1, 1, None, Some (ZoomMismatch 0 1)), s') /\
    exists im,
      SparsePointServer_tile_of_key s (1, 1) = (Some im, None) /\
      Image_At im 0 0 = Opaque.
Proof.
  eexists _, _. split; [by vm_compute|]. split; [reflexivity|].
  split; [by vm_compute|]. eexists. split; reflexivity.
Qed.

(** ** CombinedServer *)

Section Combined.

Lemma new_events_app (w w' : World) (evs : list Event) :
  trace w' = trace w ++ evs -> new_events w w' = evs.
Proof. intros H. unfold new_events. rewrite H. apply drop_app_length. Qed.

Lemma cached_enabled (w : World) (k : key) (t : Tile) :
  cached w k = Some t -> cache_enabled w = true.
Proof.
  unfold cached, cache_enabled. destruct (cache w) as [[mt [mp|]]|]; done.
Qed.

Lemma cache_has_room_enabled (w : World) :
  cache_has_room w = true -> cache_enabled w = true.
Proof.
  unfold cache_has_room, cache_enabled. destruct (cache w) as [[mt [mp|]]|]; done.
Qed.

(** The calls on the layers, for coordinates that are already wrapped. *)
Section Layers.
Variables (z x y : Z).
Hypothesis Hn : normalizeTile z x y = Val (x, y).

Lemma Cache_Get_run (w : World) :
  cache_enabled w = true ->
  Cache_Get z x y w =
    Val (match cached w (z, x, y) with
         | Some t => inl t
         | None => inr NotCached
         end, log_event (EvCacheGet (z, x, y)) w).
Proof.
  unfold cache_enabled, Cache_Get, CacheServer_Get, cached.
  destruct (cache w) as [[mt [mp|]]|]; try done. intros _.
  rewrite Hn. cbn [mbind res_bind m option_bind].
  by destruct (mp !! (z, x, y)).
Qed.

Lemma Cache_Add_run (w : World) (t : Tile) :
  cache_enabled w = true ->
  exists w',
    Cache_Add z x y t w = Val w' /\
    trace w' = trace w ++ [EvCacheAdd (z, x, y) t] /\
    store w' = store w /\ disk w' = disk w /\ net w' = net w /\
    cache_enabled w' = true /\
    cached w' (z, x, y) =
      (if cache_has_room w then Some t else cached w (z, x, y)).
Proof.
  unfold cache_enabled, Cache_Add, CacheServer_Add, cached, cache_has_room.
  destruct (cache w) as [[mt [mp|]]|]; try done. intros _.
  rewrite Hn. cbn [mbind res_bind m maxTiles].
  destruct (_ || _); eexists; (split; [reflexivity|]); cbn;
    rewrite ?lookup_insert_eq; done.
Qed.

Lemma LocalServer_Get_run (l : LocalServer) (w : World) :
  LocalServer_Get l z x y w =
    let w1 := log_event (EvLocalGet l (z, x, y)) w in
    match disk w !! (l, (z, x, y)) with
    | None => Val (inr IOError, w1)
    | Some im =>
        Val (inl (new_tile w), set_store (<[new_tile w := im]> (store w)) w1)
    end.
Proof.
  unfold LocalServer_Get. rewrite Hn. cbn [mbind res_bind log_event disk].
  by destruct (disk w !! _).
Qed.

Lemma HttpServer_Get_run (s : HttpServer) (w : World) :
  HttpServer_Get s z x y w =
    let w1 := log_event (EvHttpGet s (z, x, y)) w in
    match net w s (z, x, y) with
    | None => Val (inr IOError, w1)
    | Some im =>
        Val (inl (new_tile w), set_store (<[new_tile w := im]> (store w)) w1)
    end.
Proof.
  unfold HttpServer_Get. rewrite Hn. cbn [mbind res_bind log_event net].
  by destruct (net w s _).
Qed.

Lemma LocalServer_Add_run (l : LocalServer) (w : World) (t : Tile) (im : Image) :
  l <> "" ->
  store w !! t = Some im ->
  LocalServer_Add l z x y t w =
    Val (None, set_disk (<[(l, (z, x, y)) := im]> (disk w))
                 (log_event (EvLocalAdd l (z, x, y) t) w)).
Proof.
  intros Hl Ht. unfold LocalServer_Add. rewrite Hn.
  cbn [mbind res_bind log_event store]. rewrite bool_decide_eq_false_2 by done.
  by rewrite Ht.
Qed.

Lemma only_logged_enabled (w w' : World) (evs : list Event) :
  only_logged w w' evs -> cache_enabled w' = cache_enabled w.
Proof. intros (Hc & _). unfold cache_enabled. by rewrite Hc. Qed.

Lemma only_logged_cached (w w' : World) (evs : list Event) (k : key) :
  only_logged w w' evs -> cached w' k = cached w k.
Proof. intros (Hc & _). unfold cached. by rewrite Hc. Qed.

Lemma only_logged_has_room (w w' : World) (evs : list Event) :
  only_logged w w' evs -> cache_has_room w' = cache_has_room w.
Proof. intros (Hc & _). unfold cache_has_room. by rewrite Hc. Qed.

Lemma only_logged_trans (w w1 w2 : World) (e1 e2 : list Event) :
  only_logged w w1 e1 -> only_logged w1 w2 e2 -> only_logged w w2 (e1 ++ e2).
Proof.
  intros (Hc1 & Hs1 & Hd1 & Hn1 & Ht1) (Hc2 & Hs2 & Hd2 & Hn2 & Ht2).
  unfold only_logged. rewrite Hc2, Hs2, Hd2, Hn2, Ht2, Ht1.
  by rewrite app_assoc.
Qed.

(** A block whose layer is unconfigured or misses passes on to the code
    below it, having logged its call if it made one. *)
Lemma get_cache_miss (w : World) (rest : World -> Res outcome) :
  cached w (z, x, y) = None ->
  exists w1,
    only_logged w w1 (when (cache_enabled w) (EvCacheGet (z, x, y))) /\
    get_cache z x y w rest = rest w1.
Proof.
  intros Hc. unfold get_cache.
  destruct (cache_enabled w) eqn:Hon.
  - rewrite Cache_Get_run by done. rewrite Hc. cbn [mbind res_bind].
    eexists. split; [|reflexivity]. by repeat split.
  - exists w. split; [|done]. repeat split; try done.
    cbn [when]. by rewrite app_nil_r.
Qed.

Lemma get_local_miss (c : CombinedServer) (w : World)
    (rest : World -> Res outcome) :
  Local c = "" \/ disk w !! (Local c, (z, x, y)) = None ->
  exists w1,
    only_logged w w1 (when (local_on c) (EvLocalGet (Local c) (z, x, y))) /\
    get_local c z x y w rest = rest w1.
Proof.
  intros Hmiss. unfold get_local, local_on.
  destruct (bool_decide (Local c = "")) eqn:Hl; cbn [negb].
  - exists w. split; [|done]. repeat split; try done.
    cbn [when]. by rewrite app_nil_r.
  - apply bool_decide_eq_false in Hl. destruct Hmiss as [|Hd]; [done|].
    rewrite LocalServer_Get_run. rewrite Hd. cbn [mbind res_bind].
    eexists. split; [|reflexivity]. by repeat split.
Qed.

Lemma get_http_miss (c : CombinedServer) (w : World)
    (rest : World -> Res outcome) :
  Http c = "" \/ net w (Http c) (z, x, y) = None ->
  exists w1,
    only_logged w w1
      (if http_on c then [EvHttpGet (Http c) (z, x, y); EvLogPrint] else []) /\
    get_http c z x y w rest = rest w1.
Proof.
  intros Hmiss. unfold get_http, http_on.
  destruct (bool_decide (Http c = "")) eqn:Hh; cbn [negb].
  - exists w. split; [|done]. repeat split; try done. by rewrite app_nil_r.
  - apply bool_decide_eq_false in Hh. destruct Hmiss as [|Hd]; [done|].
    rewrite HttpServer_Get_run. rewrite Hd. cbn [mbind res_bind].
    eexists. split; [|reflexivity]. repeat split; try done.
    cbn. by rewrite <- app_assoc.
Qed.

(** The backfill of the cache after a hit further down. *)
Lemma backfill_cache (w : World) (t : Tile) :
  exists w',
    (if cache_enabled w then Cache_Add z x y t w else Val w) = Val w' /\
    trace w' = trace w ++ when (cache_enabled w) (EvCacheAdd (z, x, y) t) /\
    store w' = store w /\ disk w' = disk w /\ net w' = net w /\
    cached w' (z, x, y) =
      (if cache_has_room w then Some t else cached w (z, x, y)).
Proof.
  destruct (cache_enabled w) eqn:Hon.
  - destruct (Cache_Add_run w t Hon) as (w' & -> & Ht & Hs & Hd & Hnet & _ & Hc).
    by exists w'.
  - exists w. repeat split; try done.
    + cbn [when]. by rewrite app_nil_r.
    + destruct (cache_has_room w) eqn:Hadm; [|done].
      apply cache_has_room_enabled in Hadm. congruence.
Qed.

Lemma get_local_hit_block (c : CombinedServer) (w : World) (im : Image)
    (rest : World -> Res outcome) :
  Local c <> "" ->
  disk w !! (Local c, (z, x, y)) = Some im ->
  exists t w',
    get_local c z x y w rest = Val (t, None, w') /\
    store w' !! t = Some im /\
    trace w' = trace w ++ [EvLocalGet (Local c) (z, x, y)]
                       ++ when (cache_enabled w) (EvCacheAdd (z, x, y) t) /\
    disk w' = disk w /\ net w' = net w /\
    cached w' (z, x, y) =
      (if cache_has_room w then Some t else cached w (z, x, y)).
Proof.
  intros Hl Hd. unfold get_local.
  rewrite bool_decide_eq_false_2 by done. cbn [negb].
  rewrite LocalServer_Get_run, Hd. cbn [mbind res_bind].
  set (t := new_tile w).
  set (w1 := set_store _ _).
  destruct (backfill_cache w1 t) as (w' & Hrun & Ht & Hs & Hd' & Hnet & Hc).
  rewrite Hrun. cbn [mbind res_bind]. exists t, w'.
  split; [done|]. split.
  { rewrite Hs. subst w1. cbn. by rewrite lookup_insert_eq. }
  split.
  { rewrite Ht. subst w1. cbn. by rewrite <- app_assoc. }
  by repeat split.
Qed.

Lemma get_http_hit_block (c : CombinedServer) (w : World) (im : Image)
    (rest : World -> Res outcome) :
  Http c <> "" ->
  net w (Http c) (z, x, y) = Some im ->
  exists t w',
    get_http c z x y w rest = Val (t, None, w') /\
    store w' !! t = Some im /\
    trace w' = trace w ++ [EvHttpGet (Http c) (z, x, y)]
                       ++ when (local_on c) (EvLocalAdd (Local c) (z, x, y) t)
                       ++ when (cache_enabled w) (EvCacheAdd (z, x, y) t) /\
    disk w' = (if local_on c then <[(Local c, (z, x, y)) := im]> (disk w)
               else disk w) /\
    cached w' (z, x, y) =
      (if cache_has_room w then Some t else cached w (z, x, y)).
Proof.
  intros Hh Hnet. unfold get_http.
  rewrite bool_decide_eq_false_2 by done. cbn [negb].
  rewrite HttpServer_Get_run, Hnet. cbn [mbind res_bind].
  set (t := new_tile w).
  set (w1 := set_store _ _).
  assert (store w1 !! t = Some im) as Hst.
  { subst w1. cbn. by rewrite lookup_insert_eq. }
  unfold local_on.
  destruct (bool_decide (Local c = "")) eqn:Hl; cbn [negb mbind res_bind].
  - destruct (backfill_cache w1 t) as (w' & Hrun & Ht & Hs & Hd' & Hn' & Hc).
    rewrite Hrun. cbn [mbind res_bind]. exists t, w'.
    split; [done|]. split; [by rewrite Hs|].
    split; [rewrite Ht; subst w1; cbn; by rewrite <- app_assoc|].
    by split.
  - apply bool_decide_eq_false in Hl.
    rewrite (LocalServer_Add_run (Local c) w1 t im) by done. cbn [mbind res_bind].
    set (w2 := set_disk _ _).
    destruct (backfill_cache w2 t) as (w' & Hrun & Ht & Hs & Hd' & Hn' & Hc).
    rewrite Hrun. cbn [mbind res_bind]. exists t, w'.
    split; [done|]. split; [by rewrite Hs|].
    split; [rewrite Ht; subst w2 w1; cbn; by rewrite <- !app_assoc|].
    by split.
Qed.

End Layers.

End Combined.

Section CombinedGet.
Variables (c : CombinedServer) (z x y : Z).
Hypothesis Hz : 0 <= z <= 24.

Local Abbreviation k := (normalize_key (z, x, y)).

Lemma wrapped_again :
  normalizeTile z (x mod 2 ^ z) (y mod 2 ^ z)
    = Val (x mod 2 ^ z, y mod 2 ^ z).
Proof. eapply normalizeTile_idem. by apply normalizeTile_mod. Qed.

Lemma get_blocks (w : World) :
  get c z x y w =
    get_cache z (x mod 2 ^ z) (y mod 2 ^ z) w (fun w =>
    get_local c z (x mod 2 ^ z) (y mod 2 ^ z) w (fun w =>
    get_http c z (x mod 2 ^ z) (y mod 2 ^ z) w (fun w =>
    Val (black, None, w)))).
Proof. unfold get. by rewrite normalizeTile_mod. Qed.

(** A cache hit: the cached tile, and nothing but the cache was asked. *)
Lemma get_cache_hit (w : World) (t : Tile) :
  cached w k = Some t ->
  get c z x y w = Val (t, None, log_event (EvCacheGet k) w).
Proof.
  cbn [normalize_key]. intros Hc. rewrite get_blocks. unfold get_cache.
  rewrite (cached_enabled w _ t Hc).
  rewrite Cache_Get_run by (apply wrapped_again || by eapply cached_enabled).
  by rewrite Hc.
Qed.

(** A local-disk hit behind a cache miss. *)
Lemma get_local_hit (w : World) (im : Image) :
  cached w k = None ->
  Local c <> "" ->
  disk w !! (Local c, k) = Some im ->
  exists t w',
    get c z x y w = Val (t, None, w') /\
    store w' !! t = Some im /\
    new_events w w' =
      when (cache_enabled w) (EvCacheGet k)
      ++ [EvLocalGet (Local c) k]
      ++ when (cache_enabled w) (EvCacheAdd k t) /\
    disk w' = disk w /\
    cached w' k = (if cache_has_room w then Some t else None).
Proof.
  cbn [normalize_key]. intros Hc Hl Hd. rewrite get_blocks.
  destruct (get_cache_miss _ _ _ wrapped_again w
              (fun w => get_local c z (x mod 2 ^ z) (y mod 2 ^ z) w (fun w =>
                 get_http c z (x mod 2 ^ z) (y mod 2 ^ z) w (fun w =>
                 Val (black, None, w)))) Hc)
    as (w1 & Hlog & ->).
  pose proof Hlog as (Hc1 & Hs1 & Hd1 & Hn1 & Ht1).
  destruct (get_local_hit_block _ _ _ wrapped_again c w1 im
              (fun w => get_http c z (x mod 2 ^ z) (y mod 2 ^ z) w (fun w =>
                 Val (black, None, w))) Hl)
    as (t & w' & -> & Hst & Ht & Hd' & _ & Hcached).
  { by rewrite Hd1. }
  exists t, w'. split; [done|]. split; [done|].
  rewrite (only_logged_enabled _ _ _ Hlog) in Ht.
  rewrite (only_logged_has_room _ _ _ Hlog) in Hcached.
  rewrite (only_logged_cached _ _ _ _ Hlog) in Hcached.
  split.
  { apply new_events_app. rewrite Ht, Ht1. by rewrite <- app_assoc. }
  split; [congruence|].
  by rewrite Hcached, Hc.
Qed.

(** A remote hit behind a cache miss and a local miss. *)
Lemma get_http_hit (w : World) (im : Image) :
  cached w k = None ->
  Local c = "" \/ disk w !! (Local c, k) = None ->
  Http c <> "" ->
  net w (Http c) k = Some im ->
  exists t w',
    get c z x y w = Val (t, None, w') /\
    store w' !! t = Some im /\
    new_events w w' =
      when (cache_enabled w) (EvCacheGet k)
      ++ when (local_on c) (EvLocalGet (Local c) k)
      ++ [EvHttpGet (Http c) k]
      ++ when (local_on c) (EvLocalAdd (Local c) k t)
      ++ when (cache_enabled w) (EvCacheAdd k t) /\
    disk w' = (if local_on c then <[(Local c, k) := im]> (disk w)
               else disk w) /\
    cached w' k = (if cache_has_room w then Some t else None).
Proof.
  cbn [normalize_key]. intros Hc Hl Hh Hnet. rewrite get_blocks.
  destruct (get_cache_miss _ _ _ wrapped_again w
              (fun w => get_local c z (x mod 2 ^ z) (y mod 2 ^ z) w (fun w =>
                 get_http c z (x mod 2 ^ z) (y mod 2 ^ z) w (fun w =>
                 Val (black, None, w)))) Hc)
    as (w1 & Hlog1 & ->).
  destruct (get_local_miss _ _ _ wrapped_again c w1
              (fun w => get_http c z (x mod 2 ^ z) (y mod 2 ^ z) w (fun w =>
                 Val (black, None, w))))
    as (w2 & Hlog2 & ->).
  { destruct Hlog1 as (_ & _ & -> & _). done. }
  pose proof (only_logged_trans _ _ _ _ _ Hlog1 Hlog2) as Hlog.
  pose proof Hlog as (Hc2 & Hs2 & Hd2 & Hn2 & Ht2).
  destruct (get_http_hit_block _ _ _ wrapped_again c w2 im
              (fun w => Val (black, None, w)) Hh)
    as (t & w' & -> & Hst & Ht & Hd' & Hcached).
  { by rewrite Hn2. }
  exists t, w'. split; [done|]. split; [done|].
  rewrite (only_logged_enabled _ _ _ Hlog) in Ht.
  rewrite (only_logged_has_room _ _ _ Hlog) in Hcached.
  rewrite (only_logged_cached _ _ _ _ Hlog) in Hcached.
  split.
  { apply new_events_app. rewrite Ht, Ht2. by rewrite <- !app_assoc. }
  split; [by rewrite Hd', Hd2|].
  by rewrite Hcached, Hc.
Qed.

(** No layer has the tile: the black tile, and only calls were logged. *)
Lemma get_fallback (w : World) :
  all_miss c w k ->
  exists w',
    get c z x y w = Val (black, None, w') /\
    only_logged w w'
      (when (cache_enabled w) (EvCacheGet k)
       ++ when (local_on c) (EvLocalGet (Local c) k)
       ++ (if http_on c then [EvHttpGet (Http c) k; EvLogPrint] else [])).
Proof.
  cbn [normalize_key]. intros (Hc & Hl & Hh). rewrite get_blocks.
  destruct (get_cache_miss _ _ _ wrapped_again w
              (fun w => get_local c z (x mod 2 ^ z) (y mod 2 ^ z) w (fun w =>
                 get_http c z (x mod 2 ^ z) (y mod 2 ^ z) w (fun w =>
                 Val (black, None, w)))) Hc)
    as (w1 & Hlog1 & ->).
  destruct (get_local_miss _ _ _ wrapped_again c w1
              (fun w => get_http c z (x mod 2 ^ z) (y mod 2 ^ z) w (fun w =>
                 Val (black, None, w))))
    as (w2 & Hlog2 & ->).
  { destruct Hlog1 as (_ & _ & -> & _). done. }
  pose proof (only_logged_trans _ _ _ _ _ Hlog1 Hlog2) as Hlog12.
  destruct (get_http_miss _ _ _ wrapped_again c w2
              (fun w => Val (black, None, w)))
    as (w3 & Hlog3 & ->).
  { destruct Hlog12 as (_ & _ & _ & -> & _). done. }
  exists w3. split; [done|].
  pose proof (only_logged_trans _ _ _ _ _ Hlog12 Hlog3) as Hlog.
  by rewrite <- app_assoc in Hlog.
Qed.

(** [get] returns a tile and no error, whatever the layers hold. *)
Lemma get_total (w : World) :
  exists t w', get c z x y w = Val (t, None, w').
Proof.
  destruct (cached w k) as [t|] eqn:Hc.
  { eexists _, _. by apply get_cache_hit. }
  destruct (decide (Local c = "")) as [Hl | Hl].
  - destruct (decide (Http c = "")) as [Hh | Hh].
    + destruct (get_fallback w) as (w' & Hrun & _); [|by eauto].
      split; [done|]. split; by left.
    + destruct (net w (Http c) k) as [im|] eqn:Hnet.
      * destruct (get_http_hit w im) as (t & w' & Hrun & _); eauto.
      * destruct (get_fallback w) as (w' & Hrun & _); [|by eauto].
        split; [done|]. split; [by left | by right].
  - destruct (disk w !! (Local c, k)) as [im|] eqn:Hd.
    { destruct (get_local_hit w im) as (t & w' & Hrun & _); eauto. }
    destruct (decide (Http c = "")) as [Hh | Hh].
    + destruct (get_fallback w) as (w' & Hrun & _); [|by eauto].
      split; [done|]. split; [by right | by left].
    + destruct (net w (Http c) k) as [im|] eqn:Hnet.
      * destruct (get_http_hit w im) as (t & w' & Hrun & _); eauto.
      * destruct (get_fallback w) as (w' & Hrun & _); [|by eauto].
        split; [done|]. split; by right.
Qed.

End CombinedGet.

(** C3, as it holds.  For a zoom level in [0,24], with [k] the wrapped key
    of the request:
    - if the cache holds a tile under [k], [get] returns it and asks
      nothing but the cache;
    - if the cache misses or is not configured and the local disk has the
      file, [get] returns the tile read from it, having asked the cache (if
      configured) and then the disk; it adds the tile to the cache (if
      configured) and leaves the disk as it was; and if the cache is
      configured and has room (no limit, or fewer tiles than the limit), a
      second [get] returns the same tile and asks nothing but the cache;
    - if cache and disk miss or are not configured and the remote server has
      the tile, [get] returns it, having asked cache, disk and server in
      that order; it adds the tile to the disk and then to the cache, each
      if configured. *)
Theorem get_priority_and_backfill
    (c : CombinedServer) (w : World) (z x y : Z) :
  0 <= z <= 24 ->
  let k := normalize_key (z, x, y) in
  (forall t, cached w k = Some t ->
     get c z x y w = Val (t, None, log_event (EvCacheGet k) w)) /\
  (forall im,
     cached w k = None -> Local c <> "" -> disk w !! (Local c, k) = Some im ->
     exists t w',
       get c z x y w = Val (t, None, w') /\
       store w' !! t = Some im /\
       new_events w w' =
         when (cache_enabled w) (EvCacheGet k)
         ++ [EvLocalGet (Local c) k]
         ++ when (cache_enabled w) (EvCacheAdd k t) /\
       disk w' = disk w /\
       (cache_has_room w = true ->
        exists w'',
          get c z x y w' = Val (t, None, w'') /\
          new_events w' w'' = [EvCacheGet k])) /\
  (forall im,
     cached w k = None ->
     Local c = "" \/ disk w !! (Local c, k) = None ->
     Http c <> "" -> net w (Http c) k = Some im ->
     exists t w',
       get c z x y w = Val (t, None, w') /\
       store w' !! t = Some im /\
       new_events w w' =
         when (cache_enabled w) (EvCacheGet k)
         ++ when (local_on c) (EvLocalGet (Local c) k)
         ++ [EvHttpGet (Http c) k]
         ++ when (local_on c) (EvLocalAdd (Local c) k t)
         ++ when (cache_enabled w) (EvCacheAdd k t) /\
       (Local c <> "" -> disk w' !! (Local c, k) = Some im) /\
       (cache_has_room w = true -> cached w' k = Some t)).
Proof.
  intros Hz k. split; [|split].
  - intros t Hc. by apply get_cache_hit.
  - intros im Hc Hl Hd.
    destruct (get_local_hit c z x y Hz w im Hc Hl Hd)
      as (t & w' & Hrun & Hst & Hev & Hd' & Hcached).
    exists t, w'. repeat (split; [done|]).
    intros Hroom. rewrite Hroom in Hcached.
    eexists. split; [by apply get_cache_hit|].
    by apply new_events_app.
  - intros im Hc Hl Hh Hnet.
    destruct (get_http_hit c z x y Hz w im Hc Hl Hh Hnet)
      as (t & w' & Hrun & Hst & Hev & Hd' & Hcached).
    exists t, w'. repeat (split; [done|]). split.
    + intros Hon. rewrite Hd'. unfold local_on.
      rewrite bool_decide_eq_false_2 by done. cbn [negb].
      by rewrite lookup_insert_eq.
    + intros Hroom. by rewrite Hroom in Hcached.
Qed.

Lemma get_priority_and_backfill_witness :
  0 <= 1 <= 24 /\
  exists t w' w'',
    get Sample.disk_only 1 (-1) 3 Sample.roomy_world = Val (t, None, w') /\
    store w' !! t = Some NewAlpha /\
    new_events Sample.roomy_world w' =
      [EvCacheGet (1, 1, 1); EvLocalGet "tiles" (1, 1, 1);
       EvCacheAdd (1, 1, 1) t] /\
    get Sample.disk_only 1 (-1) 3 w' = Val (t, None, w'') /\
    new_events w' w'' = [EvCacheGet (1, 1, 1)].
Proof.
  split; [lia|].
  destruct (get_priority_and_backfill Sample.disk_only Sample.roomy_world
              1 (-1) 3 ltac:(lia))
    as (_ & Hlocal & _).
  destruct (Hlocal NewAlpha) as (t & w' & Hrun & Hst & Hev & _ & Hagain).
  - reflexivity.
  - discriminate.
  - reflexivity.
  - destruct Hagain as (w'' & Hrun2 & Hev2); [reflexivity|].
    exists t, w', w''. repeat split; assumption.
Defined.

(** C3, as stated, fails.  The cache is configured with room for one tile
    and holds one; the file of tile (1,1,1) is on the local disk.  The first
    [get] reads the file and the cache does not let the tile in; the second
    [get] reads the file again. *)
Lemma second_get_reads_disk_when_cache_full :
  ~ second_get_spares_disk Sample.disk_only Sample.full_world 1 1 1.
Proof.
  set (c := Sample.disk_only). set (w := Sample.full_world).
  intros H.
  assert (local_hit c w (normalize_key (1, 1, 1))) as Hhit.
  { split; [reflexivity|]. split; [discriminate|]. by eexists. }
  assert (exists o1 o2,
            get c 1 1 1 w = Val o1 /\ get c 1 1 1 o1.2 = Val o2 /\
            EvLocalGet (Local c) (1, 1, 1) ∈ new_events o1.2 o2.2)
    as (o1 & o2 & H1 & H2 & Hin).
  { eexists _, _. split; [vm_compute; reflexivity|].
    split; [vm_compute; reflexivity|].
    vm_compute. apply list_elem_of_In. simpl. tauto. }
  exact (H Hhit o1 o2 H1 H2 _ Hin).
Qed.

Section Overlay.
Variable M : MathLib.

(** Drawing the points changes rasters only. *)
Lemma overlay_total (ps : PointServer) (t : Tile) (z x y : Z)
    (l : list LatLon) (w : World) :
  exists w',
    for_each (fun w ll =>
        '(xy, err) ← LatLon_XY M ll z;
        match err with
        | None =>
            if (X xy =? x) && (Y xy =? y)
            then Val (Tile_Set t (XP xy) (YP xy) (PColor ps) w)
            else Val w
        | Some _ => Val w
        end) l w = Val w' /\
    cache w' = cache w /\ disk w' = disk w /\ trace w' = trace w.
Proof.
  revert w. induction l as [|ll l IH]; intros w; [by exists w|].
  cbn [for_each].
  destruct (LatLon_XY_no_panic M ll z) as (xy & err & ->).
  cbn [mbind res_bind].
  destruct err as [e|]; [by apply IH|].
  destruct (_ && _); cbn [mbind res_bind]; [|by apply IH].
  destruct (IH (Tile_Set t (XP xy) (YP xy) (PColor ps) w))
    as (w' & -> & Hc & Hd & Ht).
  by exists w'.
Qed.

End Overlay.

(** C2. For a zoom level in [0,24] and any [x], [y], Get on a
    CombinedServer does not panic and returns a tile and a nil error,
    whatever the layers hold.  When cache, local disk and remote server each
    miss or are not configured, the tile is [black], the fallback tile;
    cache and disk are left as they were, and without a point overlay so are
    the rasters, that of [black] among them. *)
Theorem Get_never_fails
    (M : MathLib) (c : CombinedServer) (w : World) (z x y : Z) :
  0 <= z <= 24 ->
  exists t w',
    Get M c z x y w = Val (t, None, w') /\
    (all_miss c w (normalize_key (z, x, y)) ->
     t = black /\ cache w' = cache w /\ disk w' = disk w /\
     (Points c = None -> store w' = store w)).
Proof.
  intros Hz. unfold Get.
  assert (exists t w1,
            get c z x y w = Val (t, None, w1) /\
            (all_miss c w (normalize_key (z, x, y)) ->
             t = black /\ cache w1 = cache w /\ disk w1 = disk w /\
             store w1 = store w)) as (t & w1 & Hrun & Hmiss).
  { destruct (get_total c z x y Hz w) as (t & w1 & Hrun).
    exists t, w1. split; [done|]. intros Hall.
    destruct (get_fallback c z x y Hz w Hall) as (w' & Hrun' & Hlog).
    rewrite Hrun in Hrun'. injection Hrun' as -> ->.
    by destruct Hlog as (? & ? & ? & _). }
  rewrite Hrun. cbn [mbind res_bind].
  destruct (Points c) as [ps|] eqn:Hps.
  - destruct (overlay_total M ps t z x y (coords ps) w1)
      as (w' & -> & Hc & Hd & _).
    cbn [mbind res_bind]. exists t, w'. split; [done|].
    intros Hall. destruct (Hmiss Hall) as (-> & Hc1 & Hd1 & _).
    repeat split; [congruence | congruence | done].
  - exists t, w1. split; [done|].
    intros Hall. destruct (Hmiss Hall) as (-> & Hc1 & Hd1 & Hs1). done.
Qed.

Lemma Get_never_fails_witness :
  0 <= 3 <= 24 /\
  exists w',
    Get RefMath.lib Sample.disk_only 3 (-1) 9 Sample.bare_world
      = Val (black, None, w') /\
    store w' !! black = Some black_image.
Proof.
  split; [lia|].
  destruct (Get_never_fails RefMath.lib Sample.disk_only Sample.bare_world
              3 (-1) 9 ltac:(lia))
    as (t & w' & Hrun & Hmiss).
  destruct Hmiss as (-> & _ & _ & Hstore).
  - split; [reflexivity|]. split; [right; reflexivity | left; reflexivity].
  - exists w'. split; [exact Hrun|]. rewrite Hstore; reflexivity.
Defined.

(** ** The size guard of the export *)

Import Orux.

Section Guard.
Variable M : MathLib.

Lemma wrap64_small (n : Z) : - 2 ^ 63 <= n < 2 ^ 63 -> wrap64 n = n.
Proof. intros Hn. unfold wrap64. rewrite Z.mod_small; lia. Qed.

Lemma length_row (z x : Z) (l : list Z) :
  length (y ← l; [(z, x, y)]) = length l.
Proof.
  induction l as [|y l IH]; [done|].
  cbn [mbind list_bind length app]. by rewrite IH.
Qed.

Lemma length_grid (z a n b k : Z) :
  length (x ← seqZ a n; y ← seqZ b k; [(z, x, y)])
    = (Z.to_nat n * Z.to_nat k)%nat.
Proof.
  rewrite <- (length_seqZ a n), <- (length_seqZ b k).
  induction (seqZ a n) as [|x l IH]; [done|].
  cbn [mbind list_bind length]. rewrite length_app, length_row.
  cbn [mbind] in IH. by rewrite IH.
Qed.

(** On one zoom level, for corners that convert and are in order: Count
    multiplies the differences of the tile indices, while the export asks
    for one tile more in each direction. *)
Lemma Count_one_level (m : Map) (z : Z) (tl br : XY) :
  ZoomLevels m = [z] ->
  LatLon_XY M (TopLeft m) z = Val (tl, None) ->
  LatLon_XY M (BottomRight m) z = Val (br, None) ->
  0 <= X tl -> X tl <= X br < 2 ^ 31 ->
  0 <= Y tl -> Y tl <= Y br < 2 ^ 31 ->
  Count M m = Val ((X br - X tl) * (Y br - Y tl), None) /\
  exists reqs,
    sqlitePipe M (TopLeft m) (BottomRight m) (ZoomLevels m) = Val reqs /\
    Z.of_nat (length reqs) = (X br - X tl + 1) * (Y br - Y tl + 1).
Proof.
  intros Hzs Htl Hbr Hx0 Hx Hy0 Hy. unfold Count. rewrite Hzs.
  cbn [Count_loop sqlitePipe]. rewrite Htl, Hbr. cbn [mbind res_bind].
  destruct (Z.ltb_spec (X br) (X tl)); [lia|].
  destruct (Z.ltb_spec (Y br) (Y tl)); [lia|]. cbn [orb].
  split.
  - rewrite (wrap64_small (X br - X tl)) by lia.
    rewrite (wrap64_small (Y br - Y tl)) by lia.
    assert (0 <= (X br - X tl) * (Y br - Y tl) < 2 ^ 62) by nia.
    rewrite (wrap64_small (_ * _)) by lia.
    rewrite wrap64_small by lia. done.
  - eexists. split; [reflexivity|].
    rewrite app_nil_r, length_grid. lia.
Qed.

End Guard.

(** C1, on the code.  The strip from (60°, 1°) to (-60°, 2°) at zoom level 7
    lies in tile column 64 and spans the rows 37 to 90: 54 tiles, more than
    the limit of 40.  Count returns 0 for it, the product of the index
    differences 0 and 53, and Encode does not refuse the map: it makes the
    directory and has all 54 tiles fetched, and the index file it writes
    records the layer as 1 by 54 tiles. *)
Theorem Encode_passes_map_over_limit :
  LatLon_XY RefMath.lib (TopLeft Sample.strip) 7
    = Val ({| X := 64; Y := 37; XP := 91; YP := 43; Zoom := 7 |}, None) /\
  LatLon_XY RefMath.lib (BottomRight Sample.strip) 7
    = Val ({| X := 64; Y := 90; XP := 182; YP := 212; Zoom := 7 |}, None) /\
  Count RefMath.lib Sample.strip = Val (0, None) /\
  tileLimit = 40 /\
  exists reqs,
    Encode RefMath.lib Sample.strip "strip"
      = Val ([Mkdir "strip"; Sqlite3 "strip" reqs;
              WriteXML "strip" [(7, 1, 54)]], None) /\
    length reqs = 54%nat.
Proof.
  split; [by vm_compute|]. split; [by vm_compute|].
  split; [by vm_compute|]. split; [reflexivity|].
  eexists. split; [by vm_compute|]. reflexivity.
Qed.

(** The map of the package's own test: two zoom levels, one tile at the
    first and two by three at the second.  Count returns 2 for these seven
    tiles. *)
Example Count_of_test_map :
  Count RefMath.lib Sample.alster = Val (2, None) /\
  xml_layers RefMath.lib Sample.alster (ZoomLevels Sample.alster)
    = Val ([(13, 1, 1); (15, 2, 3)], None).
Proof. split; by vm_compute. Qed.

(** ** The model on the values the source documents *)

(** The comment of MinLatitude gives -84.92832092949963 for zoom level 0
    and -85.0511287725758 for zoom level 24. *)
Example MinLatitude_documented :
  MinLatitude RefMath.lib 0 = Val (-0x1.53b699c30192bp+6)%float /\
  MinLatitude RefMath.lib 24 = Val (-0x1.54345b19d8640p+6)%float /\
  is_panic (MinLatitude RefMath.lib 25) = true.
Proof. repeat split; by vm_compute. Qed.

(** The corners of the map of the package's test, at its two zoom levels. *)
Example LatLon_XY_of_test_map :
  LatLon_XY RefMath.lib (Orux.TopLeft Sample.alster) 13
    = Val ({| X := 4323; Y := 2646; XP := 129; YP := 33; Zoom := 13 |}, None) /\
  LatLon_XY RefMath.lib (Orux.BottomRight Sample.alster) 15
    = Val ({| X := 17295; Y := 10586; XP := 191; YP := 109; Zoom := 15 |}, None).
Proof. split; by vm_compute. Qed.
